(** * Feature engineering of the Ethereum fraud-detection pipeline

    A shallow embedding of [src/feature_engineering.py] and of
    [steps/feature_engineering_step.py]: the Normalize strategy, the
    strategy handler and the pipeline step, over an explicit object store.

    Python objects live in a heap and are passed by reference; a method is
    a computation in a state-and-exception monad over the heap and the
    logging records.  The pandas and scikit-learn calls the source makes
    are modelled by their documented behaviour at the arguments the source
    passes; the numeric kernel of [PowerTransformer] (floating point) is a
    parameter of the development. *)

From Stdlib Require Import ZArith String.
From stdpp Require Import base list.

Local Open Scope string_scope.
Local Open Scope list_scope.
Local Open Scope nat_scope.

(** ** Values and objects *)

(** A reference to an object of the heap. *)
Definition loc := nat.

(** Exceptions raised by the modelled calls.  [KeyError] is what pandas
    raises when a column label is absent (the specification calls it
    MissingColumnError); [ValueError] is what scikit-learn's input check
    and the [DataFrame] constructor raise. *)
Inductive exn :=
| KeyError (key : string)
| ValueError (msg : string)
| TypeError
| AttributeError
| InvalidIndexError.

Inductive result (A : Type) :=
| Ok (a : A)
| Raise (e : exn).
Arguments Ok {A} a.
Arguments Raise {A} e.

(** Row labels of a pandas index. *)
Inductive ilabel :=
| LInt (z : Z)
| LStr (s : string).

Definition ilabel_eqb (a b : ilabel) : bool :=
  match a, b with
  | LInt x, LInt y => Z.eqb x y
  | LStr x, LStr y => String.eqb x y
  | _, _ => false
  end.

Fixpoint index_eqb (a b : list ilabel) : bool :=
  match a, b with
  | [], [] => true
  | x :: a', y :: b' => ilabel_eqb x y && index_eqb a' b'
  | _, _ => false
  end.

(** [pd.RangeIndex(n)]: the default row index 0, 1, ..., n-1. *)
Definition RangeIndex (n : nat) : list ilabel :=
  map (fun i => LInt (Z.of_nat i)) (seq 0 n).

(** The objects the feature-engineering code creates and receives.
    A [DataFrame] stores its columns in order, each under its label; a
    two-dimensional [ndarray] is stored by column together with its number
    of rows. *)
Inductive object (cell lam custom : Type) :=
| DataFrame (index : list ilabel) (columns : list (string * list cell))
| Series (name : string) (index : list ilabel) (values : list cell)
| ndarray (nrows : nat) (data : list (list cell))
| PowerTransformer (lambdas_ : option (list lam))
| NormalizeFeatureEngineeringStrategy (features : list string)
| CustomStrategy (s : custom)
| FeatureEngineeringHandler (_strategy : loc).
Arguments DataFrame {cell lam custom} index columns.
Arguments Series {cell lam custom} name index values.
Arguments ndarray {cell lam custom} nrows data.
Arguments PowerTransformer {cell lam custom} lambdas_.
Arguments NormalizeFeatureEngineeringStrategy {cell lam custom} features.
Arguments CustomStrategy {cell lam custom} s.
Arguments FeatureEngineeringHandler {cell lam custom} _strategy.

(** The state a call runs in: the object heap and the records handed to
    the [logging] module. *)
Record world (cell lam custom : Type) := World {
  heap : list (object cell lam custom);
  log : list string
}.
Arguments World {cell lam custom} heap log.
Arguments heap {cell lam custom} w.
Arguments log {cell lam custom} w.

(** ** The monad of Python calls *)

Definition M (cell lam custom A : Type) : Type :=
  world cell lam custom -> result A * world cell lam custom.

(** What the development leaves abstract: the cell values with their NaN,
    the numeric kernel of scikit-learn's [PowerTransformer] (input check,
    per-column maximum-likelihood fit of the Yeo-Johnson parameter,
    per-column transform followed by standardisation; the array that
    scikit-learn returns has the shape of its input, so the transform of
    a column has the column's length), and the strategies other than
    Normalize that implement [FeatureEngineeringStrategy]. *)
Class Externals := {
  cell : Type;
  nan : cell;
  lam : Type;
  check_input : nat -> list (list cell) -> option string;
  fit_col : list cell -> lam;
  transform_col : lam -> list cell -> list cell;
  transform_col_length :
    forall l c, length (transform_col l c) = length c;
  custom : Type;
  custom_apply_transformation :
    custom -> loc -> loc -> string -> M cell lam custom loc
}.

Section Model.
Context `{E : Externals}.

Abbreviation obj := (object cell lam custom).
Abbreviation state := (world cell lam custom).
Abbreviation Py := (M cell lam custom).

Definition ret {A} (a : A) : Py A := fun w => (Ok a, w).

Definition bind {A B} (m : Py A) (f : A -> Py B) : Py B :=
  fun w =>
    match m w with
    | (Ok a, w') => f a w'
    | (Raise e, w') => (Raise e, w')
    end.

Definition raise {A} (e : exn) : Py A := fun w => (Raise e, w).

Notation "x <- m ;; f" := (bind m (fun x => f))
  (at level 100, m at next level, right associativity).
Notation "m ;;; f" := (bind m (fun _ => f))
  (at level 100, right associativity).

(** Object creation: the new object gets the next free reference. *)
Definition alloc (o : obj) : Py loc :=
  fun w => (Ok (length (heap w)), World (heap w ++ [o]) (log w)).

Definition load (l : loc) : Py obj :=
  fun w =>
    match heap w !! l with
    | Some o => (Ok o, w)
    | None => (Raise TypeError, w)
    end.

(** Attribute assignment on an existing object. *)
Definition store (l : loc) (o : obj) : Py unit :=
  fun w => (Ok tt, World (<[l := o]> (heap w)) (log w)).

(** [logging.info(msg)]. *)
Definition logging_info (msg : string) : Py unit :=
  fun w => (Ok tt, World (heap w) (log w ++ [msg])).

(** ** pandas *)

Definition has_label (key : string) (c : string * list cell) : bool :=
  String.eqb (fst c) key.

(** [df[key]]: [KeyError] when no column carries the label; the column as
    a [Series] when exactly one does; a [DataFrame] of the matching
    columns when the label is duplicated. *)
Definition getitem (df : loc) (key : string) : Py loc :=
  o <- load df ;;
  match o with
  | DataFrame idx cols =>
      match List.filter (has_label key) cols with
      | [] => raise (KeyError key)
      | [c] => alloc (Series key idx (snd c))
      | cs => alloc (DataFrame idx cs)
      end
  | _ => raise TypeError
  end.

(** [df.drop(columns=labels)] with the defaults [inplace=False] and
    [errors='raise']: a new frame without the columns carrying one of the
    labels; [KeyError] when a label is absent. *)
Definition drop (df : loc) (labels : list string) : Py loc :=
  o <- load df ;;
  match o with
  | DataFrame idx cols =>
      match List.filter (fun k => negb (existsb (has_label k) cols)) labels with
      | [] =>
          alloc (DataFrame idx
                   (List.filter
                      (fun c => negb (existsb (String.eqb (fst c)) labels))
                      cols))
      | k :: _ => raise (KeyError k)
      end
  | _ => raise TypeError
  end.

(** [df.columns], read as the list of column labels. *)
Definition columns (df : loc) : Py (list string) :=
  o <- load df ;;
  match o with
  | DataFrame _ cols => ret (map fst cols)
  | _ => raise AttributeError
  end.

(** [pd.DataFrame(data, columns=labels)] on a two-dimensional array: the
    array's columns under the given labels, with the default row index;
    [ValueError] when the number of labels is not the array's width. *)
Definition DataFrame_new (data : loc) (labels : list string) : Py loc :=
  o <- load data ;;
  match o with
  | ndarray n cols =>
      if Nat.eqb (length cols) (length labels)
      then alloc (DataFrame (RangeIndex n) (zip labels cols))
      else raise (ValueError "Shape of passed values does not match columns")
  | _ => raise TypeError
  end.

(** [y.reset_index(drop=True)]: a new object with the same values and the
    default row index; the old labels are discarded. *)
Definition reset_index (y : loc) : Py loc :=
  o <- load y ;;
  match o with
  | Series name idx vals => alloc (Series name (RangeIndex (length idx)) vals)
  | DataFrame idx cols => alloc (DataFrame (RangeIndex (length idx)) cols)
  | _ => raise AttributeError
  end.

(** The table an operand of [pd.concat] contributes. *)
Definition as_frame (o : obj)
  : option (list ilabel * list (string * list cell)) :=
  match o with
  | DataFrame idx cols => Some (idx, cols)
  | Series name idx vals => Some (idx, [(name, vals)])
  | _ => None
  end.

Fixpoint load_frames (objs : list loc)
  : Py (list (list ilabel * list (string * list cell))) :=
  match objs with
  | [] => ret []
  | l :: rest =>
      o <- load l ;;
      match as_frame o with
      | Some f => fs <- load_frames rest ;; ret (f :: fs)
      | None => raise TypeError
      end
  end.

Fixpoint index_mem (x : ilabel) (idx : list ilabel) : bool :=
  match idx with
  | [] => false
  | y :: idx' => ilabel_eqb x y || index_mem x idx'
  end.

Fixpoint index_unique (idx : list ilabel) : bool :=
  match idx with
  | [] => true
  | x :: idx' => negb (index_mem x idx') && index_unique idx'
  end.

(** Union of row indexes, in order of first appearance. *)
Definition index_union (a b : list ilabel) : list ilabel :=
  a ++ List.filter (fun x => negb (index_mem x a)) b.

Fixpoint value_at (x : ilabel) (idx : list ilabel) (vals : list cell) : cell :=
  match idx, vals with
  | y :: idx', v :: vals' => if ilabel_eqb x y then v else value_at x idx' vals'
  | _, _ => nan
  end.

(** A column re-aligned on a new row index; missing rows are NaN. *)
Definition reindex (new_idx idx : list ilabel) (c : string * list cell)
  : string * list cell :=
  (fst c, map (fun x => value_at x idx (snd c)) new_idx).

(** [pd.concat(objs, axis=1)] with the default outer join: operands whose
    row indexes are all equal are put side by side; otherwise the rows
    are aligned on the union of the indexes, which must each be free of
    duplicates. *)
Definition concat (objs : list loc) : Py loc :=
  fs <- load_frames objs ;;
  match fs with
  | [] => raise (ValueError "No objects to concatenate")
  | (table_index, _) :: _ =>
      if forallb (fun f => index_eqb (fst f) table_index) fs
      then alloc (DataFrame table_index (flat_map snd fs))
      else if forallb (fun f => index_unique (fst f)) fs
      then
        let idx := foldr (fun f acc => index_union (fst f) acc) [] fs in
        alloc (DataFrame idx
                 (flat_map (fun f => map (reindex idx (fst f)) (snd f)) fs))
      else raise InvalidIndexError
  end.

(** ** scikit-learn *)

(** [PowerTransformer()] with the defaults [method='yeo-johnson'],
    [standardize=True], [copy=True]: a transformer that is not fitted. *)
Definition PowerTransformer_new : Py loc := alloc (PowerTransformer None).

(** [norm.fit_transform(X)] on a frame: the input is checked and copied
    to an array ([copy=True], so [X] itself is not written), a parameter
    is fitted on each column and kept in [norm.lambdas_], and each column
    of the copy is transformed with its own parameter.  The result is a
    new array of the same shape. *)
Definition fit_transform (norm X : loc) : Py loc :=
  t <- load norm ;;
  match t with
  | PowerTransformer _ =>
      x <- load X ;;
      match x with
      | DataFrame idx cols =>
          let n := length idx in
          let data := map snd cols in
          match check_input n data with
          | Some msg => raise (ValueError msg)
          | None =>
              store norm (PowerTransformer (Some (map fit_col data))) ;;;
              alloc (ndarray n (map (fun c => transform_col (fit_col c) c) data))
          end
      | _ => raise TypeError
      end
  | _ => raise AttributeError
  end.

(** ** [src/feature_engineering.py] *)

(** [NormalizeFeatureEngineeringStrategy.__init__]. *)
Definition NormalizeFeatureEngineeringStrategy_init (features : list string)
  : Py loc :=
  alloc (NormalizeFeatureEngineeringStrategy features).

(** [NormalizeFeatureEngineeringStrategy.apply_transformation]. *)
Definition Normalize_apply_transformation
    (self df : loc) (target_column : string) : Py loc :=
  logging_info "Starting feature normalization process." ;;;
  y <- getitem df target_column ;;
  X <- drop df [target_column] ;;
  norm <- PowerTransformer_new ;;
  X_norm <- fit_transform norm X ;;
  X_columns <- columns X ;;
  X_norm_df <- DataFrame_new X_norm X_columns ;;
  y_reset <- reset_index y ;;
  transformed_df <- concat [X_norm_df; y_reset] ;;
  logging_info "Feature engineering completed" ;;;
  ret transformed_df.

(** The method call [strategy.apply_transformation(df, target_column)] on
    a reference: dispatch on the class of the object it points to. *)
Definition call_apply_transformation
    (strategy df : loc) (target_column : string) : Py loc :=
  o <- load strategy ;;
  match o with
  | NormalizeFeatureEngineeringStrategy _ =>
      Normalize_apply_transformation strategy df target_column
  | CustomStrategy s =>
      custom_apply_transformation s strategy df target_column
  | _ => raise AttributeError
  end.

(** [FeatureEngineeringHandler.__init__]. *)
Definition FeatureEngineeringHandler_init (strategy : loc) : Py loc :=
  alloc (FeatureEngineeringHandler strategy).

(** The [strategy] property of the handler. *)
Definition strategy (self : loc) : Py loc :=
  o <- load self ;;
  match o with
  | FeatureEngineeringHandler s => ret s
  | _ => raise AttributeError
  end.

(** The setter of the [strategy] property. *)
Definition set_strategy (self strategy : loc) : Py unit :=
  o <- load self ;;
  match o with
  | FeatureEngineeringHandler _ =>
      store self (FeatureEngineeringHandler strategy)
  | _ => raise AttributeError
  end.

(** [FeatureEngineeringHandler.apply_transformation]. *)
Definition Handler_apply_transformation
    (self df : loc) (target_column : string) : Py loc :=
  o <- load self ;;
  match o with
  | FeatureEngineeringHandler _strategy =>
      call_apply_transformation _strategy df target_column
  | _ => raise AttributeError
  end.

(** ** [steps/feature_engineering_step.py] *)

Definition feature_engineering_step
    (df : loc) (target_column : string) (features : list string) : Py loc :=
  s <- NormalizeFeatureEngineeringStrategy_init features ;;
  feature_engineering_handler <- FeatureEngineeringHandler_init s ;;
  feature_engineered <-
    Handler_apply_transformation feature_engineering_handler df target_column ;;
  ret feature_engineered.

(** ** Reading a run *)

(** The columns of a frame that [drop(columns=[t])] keeps, and the ones
    that [df[t]] selects. *)
Definition feature_columns (t : string) (cols : list (string * list cell)) :=
  List.filter (fun c => negb (existsb (String.eqb (fst c)) [t])) cols.

Definition label_columns (t : string) (cols : list (string * list cell)) :=
  List.filter (has_label t) cols.

(** The object [df[t]] creates, given the selected columns. *)
Definition selected (t : string) (idx : list ilabel)
    (ys : list (string * list cell)) : obj :=
  match ys with
  | [c] => Series t idx (snd c)
  | _ => DataFrame idx ys
  end.

(** The transformed feature columns, under their labels. *)
Definition normalized (Xc : list (string * list cell)) :=
  zip (map fst Xc) (map (fun c => transform_col (fit_col c) c) (map snd Xc)).

(** The frame a successful run of the Normalize strategy returns. *)
Definition transformed_frame (t : string) (idx : list ilabel)
    (cols : list (string * list cell)) : obj :=
  DataFrame (RangeIndex (length idx))
    (normalized (feature_columns t cols) ++ label_columns t cols).

(** The objects a successful run of the Normalize strategy creates on a
    frame with row index [idx] and columns [cols], in order of creation;
    the last one is the frame it returns. *)
Definition created (t : string) (idx : list ilabel)
    (cols : list (string * list cell)) : list obj :=
  let Xc := feature_columns t cols in
  let ys := label_columns t cols in
  let n := length idx in
  [ selected t idx ys;
    DataFrame idx Xc;
    PowerTransformer (Some (map fit_col (map snd Xc)));
    ndarray n (map (fun c => transform_col (fit_col c) c) (map snd Xc));
    DataFrame (RangeIndex n) (normalized Xc);
    selected t (RangeIndex n) ys;
    transformed_frame t idx cols ].

(** The outcome of the Normalize strategy on a frame, as a function of
    the frame's content. *)
Definition Normalize_run (w : state) (t : string) (idx : list ilabel)
    (cols : list (string * list cell)) : result loc * state :=
  let start := "Starting feature normalization process." in
  let Xc := feature_columns t cols in
  let ys := label_columns t cols in
  match ys with
  | [] => (Raise (KeyError t), World (heap w) (log w ++ [start]))
  | _ =>
      match check_input (length idx) (map snd Xc) with
      | Some msg =>
          (Raise (ValueError msg),
           World (heap w ++ [selected t idx ys; DataFrame idx Xc;
                             PowerTransformer None])
                 (log w ++ [start]))
      | None =>
          (Ok (length (heap w) + 6),
           World (heap w ++ created t idx cols)
                 (log w ++ [start; "Feature engineering completed"]))
      end
  end.

End Model.

(** ** An executable instance

    Integer cells, with text and NaN, and a stand-in for the numeric
    kernel: the input check rejects text cells, empty tables and tables
    without columns, as scikit-learn's does; the parameter fitted on a
    column is its least number, and the transform subtracts it.  The other
    strategy of this instance returns its input frame as it is. *)
Module Demo.

Inductive dcell :=
| Num (z : Z)
| Text (s : string)
| NaN.

Definition is_text (c : dcell) : bool :=
  match c with Text _ => true | _ => false end.

Definition demo_check (n : nat) (data : list (list dcell)) : option string :=
  if Nat.eqb n 0 then Some "Found array with 0 sample(s)"
  else if Nat.eqb (length data) 0 then Some "Found array with 0 feature(s)"
  else if existsb (existsb is_text) data
       then Some "could not convert string to float"
       else None.

Fixpoint least (c : list dcell) : option Z :=
  match c with
  | [] => None
  | Num z :: c' =>
      match least c' with
      | Some m => Some (Z.min z m)
      | None => Some z
      end
  | _ :: c' => least c'
  end.

Definition shift (l : option Z) (c : list dcell) : list dcell :=
  map (fun x => match x, l with
                | Num z, Some m => Num (z - m)
                | _, _ => x
                end) c.

Lemma shift_length l c : length (shift l c) = length c.
Proof. unfold shift. now rewrite length_map. Qed.

#[export] Instance demo : Externals := {|
  cell := dcell;
  nan := NaN;
  lam := option Z;
  check_input := demo_check;
  fit_col := least;
  transform_col := shift;
  transform_col_length := shift_length;
  custom := unit;
  custom_apply_transformation := fun _ _ df _ w => (Ok df, w)
|}.

(** A table with columns A, B and FLAG and a row index that is not the
    default one. *)
Definition table_index : list ilabel := [LInt 10; LInt 20; LInt 30].

Definition table_columns : list (string * list dcell) :=
  [("A", [Num 1; Num 2; Num 3]);
   ("B", [Num 4; Num 5; Num 6]);
   ("FLAG", [Num 0; Num 1; Num 0])].

Definition table : object dcell (option Z) unit :=
  DataFrame table_index table_columns.

(** The same table without its FLAG column. *)
Definition unlabeled_columns : list (string * list dcell) :=
  [("A", [Num 1; Num 2; Num 3]);
   ("B", [Num 4; Num 5; Num 6])].

Definition unlabeled : object dcell (option Z) unit :=
  DataFrame table_index unlabeled_columns.

(** A heap with the two tables, a Normalize strategy configured with the
    feature list [A] and a handler holding it, another strategy and a
    handler holding that one. *)
Definition w0 : world dcell (option Z) unit :=
  World [ table;
          unlabeled;
          NormalizeFeatureEngineeringStrategy ["A"];
          FeatureEngineeringHandler 2;
          CustomStrategy tt;
          FeatureEngineeringHandler 4 ] [].

(** A table whose column A holds text. *)
Definition text_columns : list (string * list dcell) :=
  [("A", [Text "x"; Num 2; Num 3]);
   ("FLAG", [Num 0; Num 1; Num 0])].

Definition text_table : object dcell (option Z) unit :=
  DataFrame table_index text_columns.

(** The features of [table] with other labels, another row index and the
    target column first. *)
Definition relabeled_index : list ilabel := [LStr "a"; LStr "b"; LStr "c"].

Definition relabeled_columns : list (string * list dcell) :=
  [("FLAG", [Num 1; Num 1; Num 0]);
   ("A", [Num 1; Num 2; Num 3]);
   ("B", [Num 4; Num 5; Num 6])].

Definition relabeled : object dcell (option Z) unit :=
  DataFrame relabeled_index relabeled_columns.

(** The heap [w0] with these two tables added. *)
Definition w1 : world dcell (option Z) unit :=
  World (heap w0 ++ [text_table; relabeled]) [].

End Demo.

(** ** Properties of a run *)

Section Theory.
Context `{E : Externals}.

Abbreviation obj := (object cell lam custom).
Abbreviation state := (world cell lam custom).
Abbreviation Py := (M cell lam custom).

(** *** The monad and the heap *)

Lemma bind_Ok {A B} (m : Py A) (f : A -> Py B) w a w' :
  m w = (Ok a, w') -> bind m f w = f a w'.
Proof. intros H. unfold bind. now rewrite H. Qed.

Lemma bind_Raise {A B} (m : Py A) (f : A -> Py B) w e w' :
  m w = (Raise e, w') -> bind m f w = (Raise e, w').
Proof. intros H. unfold bind. now rewrite H. Qed.

Lemma load_Some l o (w : state) :
  heap w !! l = Some o -> load l w = (Ok o, w).
Proof. intros H. unfold load. now rewrite H. Qed.

Lemma insert_last (l : list obj) (x o : obj) :
  <[length l := o]> (l ++ [x]) = l ++ [o].
Proof.
  replace (length l) with (length l + 0) by lia.
  now rewrite insert_app_r.
Qed.

Lemma lookup_last (l : list obj) (x : obj) n :
  n = length l -> (l ++ [x]) !! n = Some x.
Proof. apply list_lookup_middle. Qed.

Lemma lookup_older (l : list obj) (x o : obj) i :
  l !! i = Some o -> (l ++ [x]) !! i = Some o.
Proof.
  intros H. rewrite lookup_app_l; [exact H|]. now apply lookup_lt_Some in H.
Qed.

(** *** The library calls, one by one *)

Lemma label_columns_existsb t cols :
  existsb (has_label t) cols = true <-> label_columns t cols <> [].
Proof.
  unfold label_columns. induction cols as [|c cols IH]; simpl.
  - split; [discriminate | congruence].
  - destruct (has_label t c); simpl; [split; [discriminate | reflexivity] | exact IH].
Qed.

Lemma getitem_missing df t (w : state) idx cols :
  heap w !! df = Some (DataFrame idx cols) ->
  label_columns t cols = [] ->
  getitem df t w = (Raise (KeyError t), w).
Proof.
  intros Hdf Hys. unfold getitem.
  rewrite (bind_Ok _ _ _ _ _ (load_Some _ _ _ Hdf)).
  fold (label_columns t cols). now rewrite Hys.
Qed.

Lemma getitem_found df t (w : state) idx cols :
  heap w !! df = Some (DataFrame idx cols) ->
  label_columns t cols <> [] ->
  getitem df t w
  = (Ok (length (heap w)),
     World (heap w ++ [selected t idx (label_columns t cols)]) (log w)).
Proof.
  intros Hdf Hys. unfold getitem.
  rewrite (bind_Ok _ _ _ _ _ (load_Some _ _ _ Hdf)).
  fold (label_columns t cols). unfold selected.
  destruct (label_columns t cols) as [|c [|c' ys]]; [congruence | reflexivity..].
Qed.

Lemma drop_found df t (w : state) idx cols :
  heap w !! df = Some (DataFrame idx cols) ->
  label_columns t cols <> [] ->
  drop df [t] w
  = (Ok (length (heap w)),
     World (heap w ++ [DataFrame idx (feature_columns t cols)]) (log w)).
Proof.
  intros Hdf Hys. unfold drop.
  rewrite (bind_Ok _ _ _ _ _ (load_Some _ _ _ Hdf)).
  apply label_columns_existsb in Hys. simpl. now rewrite Hys.
Qed.

Lemma fit_transform_rejected norm X (w : state) p idx cols msg :
  heap w !! norm = Some (PowerTransformer p) ->
  heap w !! X = Some (DataFrame idx cols) ->
  check_input (length idx) (map snd cols) = Some msg ->
  fit_transform norm X w = (Raise (ValueError msg), w).
Proof.
  intros Hn HX Hc. unfold fit_transform.
  rewrite (bind_Ok _ _ _ _ _ (load_Some _ _ _ Hn)).
  rewrite (bind_Ok _ _ _ _ _ (load_Some _ _ _ HX)).
  now rewrite Hc.
Qed.

Lemma fit_transform_accepted norm X (w : state) p idx cols :
  heap w !! norm = Some (PowerTransformer p) ->
  heap w !! X = Some (DataFrame idx cols) ->
  check_input (length idx) (map snd cols) = None ->
  fit_transform norm X w
  = (Ok (length (heap w)),
     World (<[norm := PowerTransformer (Some (map fit_col (map snd cols)))]>
              (heap w)
            ++ [ndarray (length idx)
                  (map (fun c => transform_col (fit_col c) c) (map snd cols))])
           (log w)).
Proof.
  intros Hn HX Hc. unfold fit_transform.
  rewrite (bind_Ok _ _ _ _ _ (load_Some _ _ _ Hn)).
  rewrite (bind_Ok _ _ _ _ _ (load_Some _ _ _ HX)).
  rewrite Hc. unfold bind, store, alloc. simpl.
  now rewrite length_insert.
Qed.

Lemma columns_frame X (w : state) idx cols :
  heap w !! X = Some (DataFrame idx cols) ->
  columns X w = (Ok (map fst cols), w).
Proof.
  intros HX. unfold columns.
  now rewrite (bind_Ok _ _ _ _ _ (load_Some _ _ _ HX)).
Qed.

Lemma DataFrame_new_array data labels (w : state) n cols :
  heap w !! data = Some (ndarray n cols) ->
  length cols = length labels ->
  DataFrame_new data labels w
  = (Ok (length (heap w)),
     World (heap w ++ [DataFrame (RangeIndex n) (zip labels cols)]) (log w)).
Proof.
  intros Hd Hlen. unfold DataFrame_new.
  rewrite (bind_Ok _ _ _ _ _ (load_Some _ _ _ Hd)).
  apply Nat.eqb_eq in Hlen. now rewrite Hlen.
Qed.

Lemma reset_index_selected y t idx ys (w : state) :
  heap w !! y = Some (selected t idx ys) ->
  reset_index y w
  = (Ok (length (heap w)),
     World (heap w ++ [selected t (RangeIndex (length idx)) ys]) (log w)).
Proof.
  intros Hy. unfold reset_index.
  rewrite (bind_Ok _ _ _ _ _ (load_Some _ _ _ Hy)).
  unfold selected. now destruct ys as [|c [|c' ys]].
Qed.

Lemma ilabel_eqb_refl a : ilabel_eqb a a = true.
Proof. destruct a; simpl; [apply Z.eqb_refl | apply String.eqb_refl]. Qed.

Lemma index_eqb_refl idx : index_eqb idx idx = true.
Proof.
  induction idx as [|a idx IH]; simpl; [reflexivity|].
  now rewrite ilabel_eqb_refl, IH.
Qed.

Lemma as_frame_selected t idx ys :
  label_columns t ys = ys -> ys <> [] ->
  as_frame (selected t idx ys) = Some (idx, ys).
Proof.
  intros Hys Hne. unfold selected.
  destruct ys as [|[name vals] [|c' ys]]; [congruence| |reflexivity].
  simpl. unfold label_columns in Hys. simpl in Hys.
  unfold has_label in Hys. simpl in Hys.
  destruct (String.eqb name t) eqn:Hname; [|discriminate].
  apply String.eqb_eq in Hname. now subst.
Qed.

Lemma label_columns_idem t cols :
  label_columns t (label_columns t cols) = label_columns t cols.
Proof.
  unfold label_columns. induction cols as [|c cols IH]; simpl; [reflexivity|].
  destruct (has_label t c) eqn:Hc; simpl; [|exact IH].
  now rewrite Hc, IH.
Qed.

Lemma load_frames_pair a b (w : state) fa fb oa ob :
  heap w !! a = Some oa -> as_frame oa = Some fa ->
  heap w !! b = Some ob -> as_frame ob = Some fb ->
  load_frames [a; b] w = (Ok [fa; fb], w).
Proof.
  intros Ha Hfa Hb Hfb. simpl.
  rewrite (bind_Ok _ _ _ _ _ (load_Some _ _ _ Ha)), Hfa.
  rewrite (bind_Ok _ _ _ [fb] w); [reflexivity|].
  rewrite (bind_Ok _ _ _ _ _ (load_Some _ _ _ Hb)), Hfb.
  reflexivity.
Qed.

Lemma concat_aligned a b (w : state) idx Xc t ys :
  heap w !! a = Some (DataFrame idx Xc) ->
  heap w !! b = Some (selected t idx ys) ->
  label_columns t ys = ys -> ys <> [] ->
  concat [a; b] w
  = (Ok (length (heap w)), World (heap w ++ [DataFrame idx (Xc ++ ys)]) (log w)).
Proof.
  intros Ha Hb Hys Hne. unfold concat.
  rewrite (bind_Ok _ _ _ _ _
             (load_frames_pair _ _ _ _ _ _ _ Ha eq_refl Hb
                (as_frame_selected _ _ _ Hys Hne))).
  simpl. rewrite !index_eqb_refl. simpl. now rewrite app_nil_r.
Qed.

Lemma logging_info_run msg (w : state) :
  logging_info msg w = (Ok tt, World (heap w) (log w ++ [msg])).
Proof. reflexivity. Qed.

Lemma normalized_width (Xc : list (string * list cell)) :
  length (map (fun c => transform_col (fit_col c) c) (map snd Xc))
  = length (map fst Xc).
Proof. now rewrite !length_map. Qed.

Ltac heap_lookup :=
  cbn [heap log];
  repeat first
    [ apply lookup_last; [rewrite ?length_app; simpl; lia]
    | apply lookup_older ];
  try eassumption.

Ltac run_call lem :=
  erewrite bind_Ok
    by (eapply lem;
        solve [ heap_lookup | eauto
              | apply normalized_width | apply label_columns_idem ]);
  cbn [heap log].

Lemma Normalize_apply_transformation_frame self df t w idx cols :
  heap w !! df = Some (DataFrame idx cols) ->
  Normalize_apply_transformation self df t w = Normalize_run w t idx cols.
Proof.
  intros Hdf.
  unfold Normalize_apply_transformation, Normalize_run.
  rewrite (bind_Ok _ _ _ _ _ (logging_info_run _ _)).
  destruct (label_columns t cols) as [|c0 ys0] eqn:Hys.
  - erewrite bind_Raise; [reflexivity|].
    now apply (getitem_missing _ _ _ idx cols).
  - assert (Hne : label_columns t cols <> []) by (rewrite Hys; discriminate).
    rewrite <- Hys.
    run_call getitem_found.
    run_call drop_found.
    unfold PowerTransformer_new.
    erewrite bind_Ok by reflexivity. cbn [heap log].
    destruct (check_input (length idx) (map snd (feature_columns t cols)))
      as [msg|] eqn:Hc.
    + erewrite bind_Raise; [|eapply fit_transform_rejected; try heap_lookup; eauto].
      now rewrite <- !app_assoc.
    + run_call fit_transform_accepted.
      rewrite insert_last.
      run_call columns_frame.
      run_call DataFrame_new_array.
      run_call reset_index_selected.
      run_call concat_aligned.
      rewrite (bind_Ok _ _ _ _ _ (logging_info_run _ _)).
      unfold ret, created, transformed_frame, normalized. cbn [heap log].
      rewrite !length_app, <- !app_assoc. simpl.
      do 2 f_equal. lia.
Qed.

Lemma Normalize_apply_transformation_not_frame self df t (w : state) :
  (forall idx cols, heap w !! df <> Some (DataFrame idx cols)) ->
  Normalize_apply_transformation self df t w
  = (Raise TypeError,
     World (heap w) (log w ++ ["Starting feature normalization process."])).
Proof.
  intros Hdf. unfold Normalize_apply_transformation.
  rewrite (bind_Ok _ _ _ _ _ (logging_info_run _ _)).
  erewrite bind_Raise; [reflexivity|].
  unfold getitem, bind, load. cbn [heap log].
  destruct (heap w !! df) as [o|] eqn:Ho; [|reflexivity].
  destruct o; try reflexivity. now destruct (Hdf index columns0).
Qed.

(** *** Columns of the returned frame *)

Lemma In_label_columns t (cols : list (string * list cell)) :
  In t (map fst cols) <-> label_columns t cols <> [].
Proof.
  unfold label_columns, has_label.
  induction cols as [|[name vals] cols IH]; simpl.
  - split; [tauto | congruence].
  - destruct (String.eqb name t) eqn:Hname.
    + apply String.eqb_eq in Hname. split; [discriminate | now left].
    + apply String.eqb_neq in Hname. rewrite <- IH. tauto.
Qed.

Lemma normalized_map (Xc : list (string * list cell)) :
  normalized Xc
  = map (fun c => (fst c, transform_col (fit_col (snd c)) (snd c))) Xc.
Proof.
  unfold normalized. induction Xc as [|c Xc IH]; simpl; [reflexivity|].
  now rewrite IH.
Qed.

Lemma normalized_labels (Xc : list (string * list cell)) :
  map fst (normalized Xc) = map fst Xc.
Proof. rewrite normalized_map, map_map. reflexivity. Qed.

Lemma label_columns_app t (a b : list (string * list cell)) :
  label_columns t (a ++ b) = label_columns t a ++ label_columns t b.
Proof. unfold label_columns. apply List.filter_app. Qed.

Lemma feature_columns_cons t c (cols : list (string * list cell)) :
  feature_columns t (c :: cols)
  = if String.eqb (fst c) t then feature_columns t cols
    else c :: feature_columns t cols.
Proof.
  unfold feature_columns. simpl. rewrite orb_false_r.
  now destruct (String.eqb (fst c) t).
Qed.

Lemma label_columns_normalized t (cols : list (string * list cell)) :
  label_columns t (normalized (feature_columns t cols)) = [].
Proof.
  rewrite normalized_map.
  induction cols as [|c cols IH]; [reflexivity|].
  rewrite feature_columns_cons.
  destruct (String.eqb (fst c) t) eqn:Hname; [exact IH|].
  unfold label_columns, has_label in *. simpl. now rewrite Hname.
Qed.

Lemma feature_labels t (cols : list (string * list cell)) :
  map fst (feature_columns t cols)
  = List.filter (fun c => negb (String.eqb c t)) (map fst cols).
Proof.
  induction cols as [|c cols IH]; [reflexivity|].
  rewrite feature_columns_cons. simpl.
  destruct (String.eqb (fst c) t); simpl; [exact IH | now rewrite IH].
Qed.

Lemma label_labels t (cols : list (string * list cell)) :
  map fst (label_columns t cols)
  = List.filter (fun c => String.eqb c t) (map fst cols).
Proof.
  unfold label_columns, has_label.
  induction cols as [|[name vals] cols IH]; simpl; [reflexivity|].
  destruct (String.eqb name t); simpl; [now rewrite IH | exact IH].
Qed.

(** *** Successful runs *)

Lemma Normalize_succeeds self df t (w : state) idx cols :
  heap w !! df = Some (DataFrame idx cols) ->
  In t (map fst cols) ->
  check_input (length idx) (map snd (feature_columns t cols)) = None ->
  Normalize_apply_transformation self df t w
  = (Ok (length (heap w) + 6),
     World (heap w ++ created t idx cols)
           (log w ++ ["Starting feature normalization process.";
                      "Feature engineering completed"])).
Proof.
  intros Hdf Ht Hc.
  rewrite (Normalize_apply_transformation_frame _ _ _ _ _ _ Hdf).
  unfold Normalize_run. rewrite Hc.
  apply In_label_columns in Ht.
  now destruct (label_columns t cols).
Qed.

Lemma created_last t idx cols (h : list obj) :
  (h ++ created t idx cols) !! (length h + 6)
  = Some (transformed_frame t idx cols).
Proof. rewrite lookup_app_r by lia. now replace (length h + 6 - length h) with 6 by lia. Qed.

(** Whatever the input, a run only appends objects to the heap. *)
Lemma Normalize_heap_extends self df t (w : state) :
  exists ext,
    heap (snd (Normalize_apply_transformation self df t w)) = heap w ++ ext.
Proof.
  destruct (heap w !! df) as [o|] eqn:Ho.
  - destruct o as [idx cols| | | | | |];
      try (rewrite Normalize_apply_transformation_not_frame
             by (intros ? ?; congruence);
           exists []; simpl; now rewrite app_nil_r).
    rewrite (Normalize_apply_transformation_frame _ _ _ _ _ _ Ho).
    unfold Normalize_run.
    destruct (label_columns t cols) as [|c ys].
    + exists []. simpl. now rewrite app_nil_r.
    + destruct (check_input _ _); eexists; simpl; reflexivity.
  - rewrite Normalize_apply_transformation_not_frame by (intros ? ?; congruence).
    exists []. simpl. now rewrite app_nil_r.
Qed.

(** A run that returns was given a frame, and is the successful run on it. *)
Lemma Normalize_returns_inv self df t (w : state) r w' :
  Normalize_apply_transformation self df t w = (Ok r, w') ->
  exists idx cols,
    heap w !! df = Some (DataFrame idx cols) /\
    r = length (heap w) + 6 /\
    heap w' = heap w ++ created t idx cols.
Proof.
  intros Hrun.
  destruct (heap w !! df) as [o|] eqn:Ho.
  2:{ rewrite Normalize_apply_transformation_not_frame in Hrun
        by (intros ? ?; congruence). discriminate. }
  destruct o as [idx cols| | | | | |];
    try (rewrite Normalize_apply_transformation_not_frame in Hrun
           by (intros ? ?; congruence); discriminate).
  rewrite (Normalize_apply_transformation_frame _ _ _ _ _ _ Ho) in Hrun.
  unfold Normalize_run in Hrun.
  destruct (label_columns t cols) as [|c ys] eqn:Hys; [discriminate|].
  destruct (check_input _ _); [discriminate|].
  injection Hrun as <- <-.
  exists idx, cols. now repeat split.
Qed.

(** *** The Normalize strategy *)

(** C2 (label preservation).  On a frame that has the target column and
    whose features pass the input check, the Normalize strategy returns a
    frame whose target column is the input's: same label, same values,
    in the same row order, whatever the row index of the input is. *)
Theorem label_preservation self df t (w : state) idx cols :
  heap w !! df = Some (DataFrame idx cols) ->
  In t (map fst cols) ->
  check_input (length idx) (map snd (feature_columns t cols)) = None ->
  exists r w' idx' cols',
    Normalize_apply_transformation self df t w = (Ok r, w') /\
    heap w' !! r = Some (DataFrame idx' cols') /\
    label_columns t cols' = label_columns t cols.
Proof.
  intros Hdf Ht Hc.
  eexists _, _, _, _. split; [|split].
  - apply (Normalize_succeeds _ _ _ _ idx cols); assumption.
  - simpl. apply created_last.
  - rewrite label_columns_app, label_columns_normalized. simpl.
    apply label_columns_idem.
Qed.

(** C3 (missing target).  On a frame without the target column the
    Normalize strategy raises the key error of the column lookup, before
    any object is created: the heap is the one it started from. *)
Theorem missing_target_fails self df t (w : state) idx cols :
  heap w !! df = Some (DataFrame idx cols) ->
  ~ In t (map fst cols) ->
  Normalize_apply_transformation self df t w
  = (Raise (KeyError t),
     World (heap w) (log w ++ ["Starting feature normalization process."])).
Proof.
  intros Hdf Ht.
  rewrite (Normalize_apply_transformation_frame _ _ _ _ _ _ Hdf).
  unfold Normalize_run.
  destruct (label_columns t cols) as [|c ys] eqn:Hys; [reflexivity|].
  exfalso. apply Ht, In_label_columns. rewrite Hys. discriminate.
Qed.

(** C5 (column-set invariance).  The returned frame has the column labels
    of the input: the feature labels in their original order, followed by
    the target label, which comes last. *)
Theorem column_set_invariance self df t (w : state) idx cols :
  heap w !! df = Some (DataFrame idx cols) ->
  In t (map fst cols) ->
  check_input (length idx) (map snd (feature_columns t cols)) = None ->
  exists r w' idx' cols',
    Normalize_apply_transformation self df t w = (Ok r, w') /\
    heap w' !! r = Some (DataFrame idx' cols') /\
    (forall c, In c (map fst cols') <-> In c (map fst cols)) /\
    map fst cols'
    = List.filter (fun c => negb (String.eqb c t)) (map fst cols)
      ++ List.filter (fun c => String.eqb c t) (map fst cols) /\
    last (map fst cols') = Some t.
Proof.
  intros Hdf Ht Hc.
  eexists _, _, _, _. split; [|split].
  - apply (Normalize_succeeds _ _ _ _ idx cols); assumption.
  - simpl. apply created_last.
  - assert (Hlabels :
      map fst (normalized (feature_columns t cols) ++ label_columns t cols)
      = List.filter (fun c => negb (String.eqb c t)) (map fst cols)
        ++ List.filter (fun c => String.eqb c t) (map fst cols)).
    { now rewrite map_app, normalized_labels, feature_labels, label_labels. }
    rewrite Hlabels. split; [|split; [reflexivity|]].
    + intros c. rewrite in_app_iff, !filter_In.
      destruct (String.eqb c t); simpl; intuition congruence.
    + assert (Hin : In t (List.filter (fun c => String.eqb c t) (map fst cols))).
      { apply filter_In. split; [exact Ht | apply String.eqb_refl]. }
      destruct (List.filter (fun c => String.eqb c t) (map fst cols))
        as [|x l] eqn:Hf using rev_ind; [destruct Hin|].
      rewrite app_assoc, last_snoc. f_equal.
      assert (Hx : In x (List.filter (fun c => String.eqb c t) (map fst cols))).
      { rewrite Hf. apply in_app_iff. right. now left. }
      apply filter_In in Hx. now apply String.eqb_eq.
Qed.

(** C6 (row-count invariance).  The returned frame has as many rows as
    the input, and each of its columns has that many values. *)
Theorem row_count_invariance self df t (w : state) idx cols :
  heap w !! df = Some (DataFrame idx cols) ->
  Forall (fun c => length (snd c) = length idx) cols ->
  In t (map fst cols) ->
  check_input (length idx) (map snd (feature_columns t cols)) = None ->
  exists r w' idx' cols',
    Normalize_apply_transformation self df t w = (Ok r, w') /\
    heap w' !! r = Some (DataFrame idx' cols') /\
    length idx' = length idx /\
    Forall (fun c => length (snd c) = length idx') cols'.
Proof.
  intros Hdf Hwf Ht Hc.
  eexists _, _, _, _. split; [|split; [|split]].
  - apply (Normalize_succeeds _ _ _ _ idx cols); assumption.
  - simpl. apply created_last.
  - unfold RangeIndex. now rewrite length_map, length_seq.
  - assert (Hn : length (RangeIndex (length idx)) = length idx).
    { unfold RangeIndex. now rewrite length_map, length_seq. }
    rewrite Hn. rewrite List.Forall_forall in Hwf.
    apply List.Forall_forall. intros c Hin.
    apply in_app_iff in Hin. destruct Hin as [Hin|Hin].
    + rewrite normalized_map in Hin. apply in_map_iff in Hin.
      destruct Hin as [c0 [<- Hin]]. simpl. rewrite transform_col_length.
      apply Hwf. unfold feature_columns in Hin.
      now apply filter_In in Hin.
    + apply Hwf. unfold label_columns in Hin. now apply filter_In in Hin.
Qed.

(** C10 (default row index).  Whenever the Normalize strategy returns,
    its argument was a frame and what it returns is the transformed frame
    of that input: its row index is the default one, 0, ..., n-1 for the
    n rows of the input, and its columns are the transformed features
    followed by the target columns, each under a column label of the
    input.  The labels of the input's row index are dropped: they are
    neither the row index of the output nor a column of it. *)
Theorem output_has_default_index self df t (w : state) r w' :
  Normalize_apply_transformation self df t w = (Ok r, w') ->
  exists idx cols,
    heap w !! df = Some (DataFrame idx cols) /\
    heap w' !! r = Some (transformed_frame t idx cols) /\
    exists cols',
      transformed_frame t idx cols
      = DataFrame (RangeIndex (length idx)) cols' /\
      forall c, In c (map fst cols') -> In c (map fst cols).
Proof.
  intros Hrun.
  destruct (Normalize_returns_inv _ _ _ _ _ _ Hrun)
    as (idx & cols & Hframe & -> & ->).
  exists idx, cols. split; [exact Hframe|]. split; [apply created_last|].
  eexists. split; [reflexivity|].
  intros c. rewrite map_app, normalized_labels, feature_labels, label_labels.
  rewrite in_app_iff, !filter_In. tauto.
Qed.

(** C7 (the input is not mutated).  After a call of the Normalize
    strategy, successful or not, the object passed as [df] is the one it
    was before, and so is every other object that existed; the frame
    returned is a new object, distinct from the input. *)
Theorem input_not_mutated self df t (w : state) o :
  heap w !! df = Some o ->
  heap (snd (Normalize_apply_transformation self df t w)) !! df = Some o /\
  (forall l o', heap w !! l = Some o' ->
     heap (snd (Normalize_apply_transformation self df t w)) !! l = Some o') /\
  (forall r, fst (Normalize_apply_transformation self df t w) = Ok r ->
     heap w !! r = None /\ r <> df).
Proof.
  intros Hdf.
  destruct (Normalize_heap_extends self df t w) as [ext Hext].
  assert (Hold : forall l o', heap w !! l = Some o' ->
     heap (snd (Normalize_apply_transformation self df t w)) !! l = Some o').
  { intros l o' Hl. rewrite Hext. rewrite lookup_app_l; [exact Hl|].
    now apply lookup_lt_Some in Hl. }
  split; [now apply Hold | split; [exact Hold|]].
  intros r Hr.
  destruct (Normalize_apply_transformation self df t w) as [res w'] eqn:Hrun.
  simpl in Hr. subst res.
  destruct (Normalize_returns_inv _ _ _ _ _ _ Hrun) as (idx & cols & _ & -> & _).
  assert (Hnew : heap w !! (length (heap w) + 6) = None)
    by (apply lookup_ge_None; lia).
  split; [exact Hnew|].
  intros Heq. rewrite Heq in Hnew.
  pose proof (eq_trans (eq_sym Hdf) Hnew) as Habs. discriminate Habs.
Qed.

(** C9 (determinism).  Two calls of the Normalize strategy in a row on
    the same frame have the same outcome: both raise the same exception,
    or both return, and the two frames returned have the same content. *)
Theorem determinism self df t (w : state) :
  let '(r1, w1) := Normalize_apply_transformation self df t w in
  let '(r2, w2) := Normalize_apply_transformation self df t w1 in
  match r1, r2 with
  | Ok a, Ok b =>
      a <> b /\ exists o, heap w2 !! a = Some o /\ heap w2 !! b = Some o
  | Raise e1, Raise e2 => e1 = e2
  | _, _ => False
  end.
Proof.
  destruct (heap w !! df) as [o|] eqn:Ho.
  2:{ rewrite !Normalize_apply_transformation_not_frame
        by (intros ? ?; simpl; congruence).
      reflexivity. }
  destruct o as [idx cols| | | | | |];
    try (rewrite !Normalize_apply_transformation_not_frame
           by (intros ? ?; simpl; congruence);
         reflexivity).
  rewrite (Normalize_apply_transformation_frame _ _ _ _ _ _ Ho).
  unfold Normalize_run at 1.
  destruct (label_columns t cols) as [|c ys] eqn:Hys.
  - rewrite (Normalize_apply_transformation_frame _ _ _ _ idx cols) by exact Ho.
    unfold Normalize_run. now rewrite Hys.
  - destruct (check_input (length idx) (map snd (feature_columns t cols)))
      as [msg|] eqn:Hc.
    + rewrite (Normalize_apply_transformation_frame _ _ _ _ idx cols).
      * unfold Normalize_run. now rewrite Hys, Hc.
      * simpl. rewrite lookup_app_l; [exact Ho|]. now apply lookup_lt_Some in Ho.
    + rewrite (Normalize_apply_transformation_frame _ _ _ _ idx cols).
      * unfold Normalize_run. rewrite Hys, Hc. cbn [heap log].
        split; [rewrite length_app; unfold created; simpl length; lia|].
        exists (transformed_frame t idx cols). split.
        -- rewrite lookup_app_l by (rewrite !length_app; simpl; lia).
           apply created_last.
        -- apply created_last.
      * simpl. rewrite lookup_app_l; [exact Ho|]. now apply lookup_lt_Some in Ho.
Qed.

(** *** The handler *)

Lemma Handler_call self s df t (w : state) :
  heap w !! self = Some (FeatureEngineeringHandler s) ->
  Handler_apply_transformation self df t w
  = call_apply_transformation s df t w.
Proof.
  intros Hself. unfold Handler_apply_transformation.
  now rewrite (bind_Ok _ _ _ _ _ (load_Some _ _ _ Hself)).
Qed.

Lemma call_Normalize s features df t (w : state) :
  heap w !! s = Some (NormalizeFeatureEngineeringStrategy features) ->
  call_apply_transformation s df t w
  = Normalize_apply_transformation s df t w.
Proof.
  intros Hs. unfold call_apply_transformation.
  now rewrite (bind_Ok _ _ _ _ _ (load_Some _ _ _ Hs)).
Qed.

(** C4 (delegation).  A call of the handler is the call of the strategy
    it holds, on the same arguments: same result or same exception, same
    heap and same log afterwards. *)
Theorem handler_delegates self s df t (w : state) :
  heap w !! self = Some (FeatureEngineeringHandler s) ->
  Handler_apply_transformation self df t w
  = call_apply_transformation s df t w.
Proof. apply Handler_call. Qed.

Lemma set_strategy_run self s_old s_new (w : state) :
  heap w !! self = Some (FeatureEngineeringHandler s_old) ->
  set_strategy self s_new w
  = (Ok tt,
     World (<[self := FeatureEngineeringHandler s_new]> (heap w)) (log w)).
Proof.
  intros Hself. unfold set_strategy.
  now rewrite (bind_Ok _ _ _ _ _ (load_Some _ _ _ Hself)).
Qed.

(** C8 (strategy substitutability).  Setting the strategy of a handler
    succeeds and changes nothing but the handler's reference; the next
    call of the handler is the call of the new strategy, whatever the old
    one was.  When the new strategy is the Normalize strategy and the
    argument a frame, the outcome is the one computed from the frame's
    content alone: nothing fitted by an earlier call is read. *)
Theorem strategy_substitutability self s_old s_new df t (w : state) :
  heap w !! self = Some (FeatureEngineeringHandler s_old) ->
  exists w1,
    set_strategy self s_new w = (Ok tt, w1) /\
    heap w1 !! self = Some (FeatureEngineeringHandler s_new) /\
    (forall l, l <> self -> heap w1 !! l = heap w !! l) /\
    log w1 = log w /\
    Handler_apply_transformation self df t w1
    = call_apply_transformation s_new df t w1 /\
    (forall features idx cols,
       heap w1 !! s_new = Some (NormalizeFeatureEngineeringStrategy features) ->
       heap w1 !! df = Some (DataFrame idx cols) ->
       Handler_apply_transformation self df t w1 = Normalize_run w1 t idx cols).
Proof.
  intros Hself.
  set (w1 := World (<[self := FeatureEngineeringHandler s_new]> (heap w))
                   (log w) : state).
  assert (Hnew : heap w1 !! self = Some (FeatureEngineeringHandler s_new)).
  { apply list_lookup_insert_eq. now apply lookup_lt_Some in Hself. }
  assert (Hcall : Handler_apply_transformation self df t w1
                  = call_apply_transformation s_new df t w1)
    by exact (Handler_call _ _ _ _ _ Hnew).
  exists w1. split; [exact (set_strategy_run _ _ _ _ Hself)|].
  split; [exact Hnew|].
  split; [intros l Hl; now apply list_lookup_insert_ne|].
  split; [reflexivity|].
  split; [exact Hcall|].
  intros features idx cols Hs Hdf.
  rewrite Hcall, (call_Normalize _ _ _ _ _ Hs).
  now apply Normalize_apply_transformation_frame.
Qed.

(** *** The pipeline step *)

(** C1 (the configured feature list).  The step builds the Normalize
    strategy with the feature list it is given, yet the frame it returns
    does not depend on that list: every column that is not the target is
    fitted and transformed, also when the list is not empty and does not
    name it. *)
Theorem feature_list_is_not_consulted features df t (w : state) idx cols :
  heap w !! df = Some (DataFrame idx cols) ->
  In t (map fst cols) ->
  check_input (length idx) (map snd (feature_columns t cols)) = None ->
  exists r w',
    feature_engineering_step df t features w = (Ok r, w') /\
    heap w' !! r = Some (transformed_frame t idx cols).
Proof.
  intros Hdf Ht Hc. unfold feature_engineering_step.
  unfold NormalizeFeatureEngineeringStrategy_init, FeatureEngineeringHandler_init.
  erewrite bind_Ok by reflexivity. cbn [heap log].
  erewrite bind_Ok by reflexivity. cbn [heap log].
  erewrite bind_Ok.
  2:{ erewrite Handler_call by heap_lookup.
      erewrite call_Normalize by heap_lookup.
      apply (Normalize_succeeds _ _ _ _ idx cols);
        [heap_lookup | exact Ht | exact Hc]. }
  eexists _, _. split; [reflexivity|].
  cbn [heap log]. apply created_last.
Qed.

(** *** Further properties of the handler *)

Lemma strategy_run self s (w : state) :
  heap w !! self = Some (FeatureEngineeringHandler s) ->
  strategy self w = (Ok s, w).
Proof.
  intros Hself. unfold strategy.
  now rewrite (bind_Ok _ _ _ _ _ (load_Some _ _ _ Hself)).
Qed.

Lemma world_eta (w : state) : World (heap w) (log w) = w.
Proof. now destruct w. Qed.

Lemma bind_ret_r {A} (m : Py A) (w : state) : bind m ret w = m w.
Proof. unfold bind, ret. destruct (m w) as [[a|e] w']; reflexivity. Qed.

(** X1.  A handler built on a strategy is a new object, the objects that
    existed are kept, and reading its [strategy] property gives the
    strategy it was built on without changing anything. *)
Theorem strategy_after_init s (w : state) :
  exists h w1,
    FeatureEngineeringHandler_init s w = (Ok h, w1) /\
    heap w !! h = None /\
    (forall l o, heap w !! l = Some o -> heap w1 !! l = Some o) /\
    strategy h w1 = (Ok s, w1).
Proof.
  exists (length (heap w)),
         (World (heap w ++ [FeatureEngineeringHandler s]) (log w)).
  split; [reflexivity|]. split; [apply lookup_ge_None; lia|].
  split.
  - intros l o Hl. now apply lookup_older.
  - apply strategy_run. now apply lookup_last.
Qed.

(** X2.  The setter stores whatever reference it is given, without
    checking it, and the getter then returns that reference and leaves
    the heap and the log as the setter left them. *)
Theorem strategy_after_set self s_old s (w : state) :
  heap w !! self = Some (FeatureEngineeringHandler s_old) ->
  exists w1,
    set_strategy self s w = (Ok tt, w1) /\
    strategy self w1 = (Ok s, w1).
Proof.
  intros Hself. eexists. split; [exact (set_strategy_run _ _ _ _ Hself)|].
  apply strategy_run. cbn [heap].
  apply list_lookup_insert_eq. now apply lookup_lt_Some in Hself.
Qed.

(** X3.  Setting the strategy twice in a row is setting it to the second
    one: the first assignment leaves no trace. *)
Theorem set_strategy_twice self s0 s1 s2 (w : state) :
  heap w !! self = Some (FeatureEngineeringHandler s0) ->
  bind (set_strategy self s1) (fun _ => set_strategy self s2) w
  = set_strategy self s2 w.
Proof.
  intros Hself.
  rewrite (bind_Ok _ _ _ _ _ (set_strategy_run _ _ s1 _ Hself)).
  rewrite (set_strategy_run _ s0 s2 _ Hself).
  erewrite set_strategy_run.
  - cbn [heap log]. now rewrite list_insert_insert_eq.
  - cbn [heap]. apply list_lookup_insert_eq. now apply lookup_lt_Some in Hself.
Qed.

(** X4.  Assigning to the [strategy] property the value just read from it
    changes neither the heap nor the log. *)
Theorem set_strategy_current self s (w : state) :
  heap w !! self = Some (FeatureEngineeringHandler s) ->
  bind (strategy self) (fun s' => set_strategy self s') w = (Ok tt, w).
Proof.
  intros Hself.
  rewrite (bind_Ok _ _ _ _ _ (strategy_run _ _ _ Hself)).
  rewrite (set_strategy_run _ _ _ _ Hself).
  rewrite list_insert_id by exact Hself. now rewrite world_eta.
Qed.

(** *** Further properties of the Normalize strategy *)

Lemma RangeIndex_length n : length (RangeIndex n) = n.
Proof. unfold RangeIndex. now rewrite length_map, length_seq. Qed.

Lemma feature_columns_app t (a b : list (string * list cell)) :
  feature_columns t (a ++ b) = feature_columns t a ++ feature_columns t b.
Proof. unfold feature_columns. apply List.filter_app. Qed.

Lemma label_columns_cons t c (cols : list (string * list cell)) :
  label_columns t (c :: cols)
  = if String.eqb (fst c) t then c :: label_columns t cols
    else label_columns t cols.
Proof. reflexivity. Qed.

Lemma feature_columns_label_columns t (cols : list (string * list cell)) :
  feature_columns t (label_columns t cols) = [].
Proof.
  induction cols as [|c cols IH]; [reflexivity|].
  rewrite label_columns_cons.
  destruct (String.eqb (fst c) t) eqn:Hc; [|exact IH].
  rewrite feature_columns_cons, Hc. exact IH.
Qed.

Lemma feature_columns_normalized t (cols : list (string * list cell)) :
  feature_columns t (normalized (feature_columns t cols))
  = normalized (feature_columns t cols).
Proof.
  rewrite !normalized_map.
  induction cols as [|c cols IH]; [reflexivity|].
  rewrite feature_columns_cons.
  destruct (String.eqb (fst c) t) eqn:Hc; [exact IH|].
  cbn [map]. rewrite feature_columns_cons. cbn [fst]. rewrite Hc.
  now rewrite IH.
Qed.

Lemma feature_columns_out t (cols : list (string * list cell)) :
  feature_columns t (normalized (feature_columns t cols) ++ label_columns t cols)
  = normalized (feature_columns t cols).
Proof.
  rewrite feature_columns_app, feature_columns_normalized,
    feature_columns_label_columns.
  apply app_nil_r.
Qed.

Lemma label_columns_out t (cols : list (string * list cell)) :
  label_columns t (normalized (feature_columns t cols) ++ label_columns t cols)
  = label_columns t cols.
Proof.
  rewrite label_columns_app, label_columns_normalized. simpl.
  apply label_columns_idem.
Qed.

Lemma In_labels_out t (cols : list (string * list cell)) :
  In t (map fst cols) ->
  In t (map fst (normalized (feature_columns t cols) ++ label_columns t cols)).
Proof.
  intros Ht. apply In_label_columns. rewrite label_columns_out.
  now apply In_label_columns.
Qed.

(** X6.  On a frame that has the target column but whose features the
    input check rejects, the call raises the [ValueError] of the check;
    up to then it has created the selected labels, the frame of features
    and a transformer that is still not fitted, and it has logged the
    start message only. *)
Theorem rejected_features_fail self df t (w : state) idx cols msg :
  heap w !! df = Some (DataFrame idx cols) ->
  In t (map fst cols) ->
  check_input (length idx) (map snd (feature_columns t cols)) = Some msg ->
  Normalize_apply_transformation self df t w
  = (Raise (ValueError msg),
     World (heap w ++ [selected t idx (label_columns t cols);
                       DataFrame idx (feature_columns t cols);
                       PowerTransformer None])
           (log w ++ ["Starting feature normalization process."])).
Proof.
  intros Hdf Ht Hc.
  rewrite (Normalize_apply_transformation_frame _ _ _ _ _ _ Hdf).
  unfold Normalize_run. rewrite Hc.
  apply In_label_columns in Ht.
  now destruct (label_columns t cols).
Qed.

(** X7.  Whatever the arguments, a call logs the start message, and logs
    the completion message after it exactly when it returns a frame;
    nothing else is logged and earlier records are kept. *)
Theorem completion_logged_iff_returned self df t (w : state) :
  let '(r, w') := Normalize_apply_transformation self df t w in
  log w'
  = log w ++ "Starting feature normalization process."
             :: match r with
                | Ok _ => ["Feature engineering completed"]
                | Raise _ => []
                end.
Proof.
  destruct (heap w !! df) as [o|] eqn:Ho.
  2:{ rewrite Normalize_apply_transformation_not_frame
        by (intros ? ?; congruence). reflexivity. }
  destruct o as [idx cols| | | | | |];
    try (rewrite Normalize_apply_transformation_not_frame
           by (intros ? ?; congruence); reflexivity).
  rewrite (Normalize_apply_transformation_frame _ _ _ _ _ _ Ho).
  unfold Normalize_run.
  destruct (label_columns t cols) as [|c ys]; [reflexivity|].
  now destruct (check_input _ _).
Qed.

(** X9.  In the frame returned, the columns other than the target are the
    input's features, each under its label and at its place, and each
    holds the transform of the input column with the parameter fitted on
    that very column. *)
Theorem transformed_feature_columns self df t (w : state) idx cols :
  heap w !! df = Some (DataFrame idx cols) ->
  In t (map fst cols) ->
  check_input (length idx) (map snd (feature_columns t cols)) = None ->
  exists r w' idx' cols',
    Normalize_apply_transformation self df t w = (Ok r, w') /\
    heap w' !! r = Some (DataFrame idx' cols') /\
    feature_columns t cols'
    = map (fun c => (fst c, transform_col (fit_col (snd c)) (snd c)))
        (feature_columns t cols).
Proof.
  intros Hdf Ht Hc.
  eexists _, _, _, _. split; [|split].
  - apply (Normalize_succeeds _ _ _ _ idx cols); assumption.
  - simpl. apply created_last.
  - rewrite feature_columns_out. apply normalized_map.
Qed.

(** X8.  The transformed features do not depend on the labels nor on the
    row labels: two frames with the same features and the same number of
    rows, whatever their target columns and row indexes, give frames
    with the same row index and the same feature columns. *)
Theorem features_independent_of_labels
    self1 self2 df1 df2 t (w1 w2 : state) idx1 cols1 idx2 cols2 :
  heap w1 !! df1 = Some (DataFrame idx1 cols1) ->
  heap w2 !! df2 = Some (DataFrame idx2 cols2) ->
  In t (map fst cols1) ->
  In t (map fst cols2) ->
  length idx1 = length idx2 ->
  feature_columns t cols1 = feature_columns t cols2 ->
  check_input (length idx1) (map snd (feature_columns t cols1)) = None ->
  exists r1 w1' r2 w2' idx' c1 c2,
    Normalize_apply_transformation self1 df1 t w1 = (Ok r1, w1') /\
    Normalize_apply_transformation self2 df2 t w2 = (Ok r2, w2') /\
    heap w1' !! r1 = Some (DataFrame idx' c1) /\
    heap w2' !! r2 = Some (DataFrame idx' c2) /\
    feature_columns t c1 = feature_columns t c2.
Proof.
  intros Hdf1 Hdf2 Ht1 Ht2 Hlen Hfeat Hc.
  assert (Hc2 : check_input (length idx2) (map snd (feature_columns t cols2))
                = None) by (now rewrite <- Hlen, <- Hfeat).
  eexists _, _, _, _, _, _, _. split; [|split; [|split; [|split]]].
  - apply (Normalize_succeeds _ _ _ _ idx1 cols1); assumption.
  - apply (Normalize_succeeds _ _ _ _ idx2 cols2); assumption.
  - simpl. apply created_last.
  - simpl. rewrite created_last. unfold transformed_frame.
    now rewrite <- Hlen.
  - now rewrite !feature_columns_out, Hfeat.
Qed.

(** X10.  The layout of the returned frame is stable: applying the
    strategy to its own output, with the same target, finds the target
    column again and returns a frame with the same row index, the same
    column labels in the same order and the same target columns. *)
Theorem rerun_on_output self df t (w : state) idx cols :
  heap w !! df = Some (DataFrame idx cols) ->
  In t (map fst cols) ->
  check_input (length idx) (map snd (feature_columns t cols)) = None ->
  check_input (length idx)
    (map snd (normalized (feature_columns t cols))) = None ->
  exists r1 w1 r2 w2 idx' cols1 cols2,
    Normalize_apply_transformation self df t w = (Ok r1, w1) /\
    Normalize_apply_transformation self r1 t w1 = (Ok r2, w2) /\
    heap w1 !! r1 = Some (DataFrame idx' cols1) /\
    heap w2 !! r2 = Some (DataFrame idx' cols2) /\
    map fst cols2 = map fst cols1 /\
    label_columns t cols2 = label_columns t cols.
Proof.
  intros Hdf Ht Hc Hc2.
  set (out := normalized (feature_columns t cols) ++ label_columns t cols).
  assert (Hout : (heap w ++ created t idx cols) !! (length (heap w) + 6)
                 = Some (DataFrame (RangeIndex (length idx)) out))
    by apply created_last.
  eexists _, _, _, _, _, _, _. split; [|split; [|split; [|split; [|split]]]].
  - apply (Normalize_succeeds _ _ _ _ idx cols); assumption.
  - apply (Normalize_succeeds _ _ _ _ (RangeIndex (length idx)) out).
    + exact Hout.
    + now apply In_labels_out.
    + rewrite RangeIndex_length. unfold out.
      now rewrite feature_columns_out.
  - exact Hout.
  - cbn [heap]. rewrite created_last. unfold transformed_frame.
    rewrite RangeIndex_length. reflexivity.
  - unfold out. rewrite feature_columns_out, label_columns_out.
    rewrite !map_app, !normalized_labels. reflexivity.
  - rewrite (label_columns_out t out). apply label_columns_out.
Qed.

(** *** Further properties of the handler and the step *)

(** X11.  A call that fails does not spoil the handler: after a call with
    a target that the frame lacks has raised its key error, a call of the
    same handler on the same frame with a target it has returns the
    transformed frame. *)
Theorem failed_call_leaves_handler_usable
    self s features df bad t (w : state) idx cols :
  heap w !! self = Some (FeatureEngineeringHandler s) ->
  heap w !! s = Some (NormalizeFeatureEngineeringStrategy features) ->
  heap w !! df = Some (DataFrame idx cols) ->
  ~ In bad (map fst cols) ->
  In t (map fst cols) ->
  check_input (length idx) (map snd (feature_columns t cols)) = None ->
  exists w1 r w2,
    Handler_apply_transformation self df bad w = (Raise (KeyError bad), w1) /\
    Handler_apply_transformation self df t w1 = (Ok r, w2) /\
    heap w2 !! r = Some (transformed_frame t idx cols).
Proof.
  intros Hself Hs Hdf Hbad Ht Hc.
  eexists _, _, _. split; [|split].
  - rewrite (Handler_call _ _ _ _ _ Hself), (call_Normalize _ _ _ _ _ Hs).
    rewrite (Normalize_apply_transformation_frame _ _ _ _ _ _ Hdf).
    unfold Normalize_run.
    destruct (label_columns bad cols) as [|c ys] eqn:Hys; [reflexivity|].
    exfalso. apply Hbad, In_label_columns. rewrite Hys. discriminate.
  - erewrite Handler_call by exact Hself.
    erewrite call_Normalize by exact Hs.
    apply (Normalize_succeeds _ _ _ _ idx cols); assumption.
  - cbn [heap]. apply created_last.
Qed.

Lemma step_run df t features (w : state) :
  feature_engineering_step df t features w
  = Normalize_apply_transformation (length (heap w)) df t
      (World (heap w ++ [NormalizeFeatureEngineeringStrategy features;
                         FeatureEngineeringHandler (length (heap w))])
             (log w)).
Proof.
  unfold feature_engineering_step.
  unfold NormalizeFeatureEngineeringStrategy_init, FeatureEngineeringHandler_init.
  erewrite bind_Ok by reflexivity. cbn [heap log].
  erewrite bind_Ok by reflexivity. cbn [heap log].
  rewrite <- app_assoc. simpl app.
  change (fun feature_engineered : loc => ret feature_engineered)
    with (@ret E loc).
  rewrite bind_ret_r.
  erewrite Handler_call.
  - eapply call_Normalize. cbn [heap].
    rewrite lookup_app_r by lia. now rewrite Nat.sub_diag.
  - cbn [heap]. rewrite length_app. simpl length.
    rewrite lookup_app_r by lia.
    now replace (length (heap w) + 1 - length (heap w)) with 1 by lia.
Qed.

(** X5.  The step is one call of the Normalize strategy: it creates a
    strategy with the feature list and a handler holding it, and its
    outcome, result or exception, heap and log, is that of the strategy
    called on the same frame and target. *)
Theorem step_is_normalize_call df t features (w : state) :
  feature_engineering_step df t features w
  = Normalize_apply_transformation (length (heap w)) df t
      (World (heap w ++ [NormalizeFeatureEngineeringStrategy features;
                         FeatureEngineeringHandler (length (heap w))])
             (log w)).
Proof. apply step_run. Qed.

Lemma step_frame_lookup df features (w : state) o :
  heap w !! df = Some o ->
  (heap w ++ [NormalizeFeatureEngineeringStrategy features;
              FeatureEngineeringHandler (length (heap w)) : obj]) !! df
  = Some o.
Proof.
  intros Hdf. rewrite lookup_app_l; [exact Hdf|].
  now apply lookup_lt_Some in Hdf.
Qed.

(** X12.  The handler and the step catch nothing: on a frame without the
    target column the step raises the key error of the lookup, and on a
    frame whose features the input check rejects it raises the
    [ValueError] of the check. *)
Theorem step_propagates_errors df t features (w : state) idx cols :
  heap w !! df = Some (DataFrame idx cols) ->
  (~ In t (map fst cols) ->
   fst (feature_engineering_step df t features w) = Raise (KeyError t)) /\
  (forall msg,
     In t (map fst cols) ->
     check_input (length idx) (map snd (feature_columns t cols)) = Some msg ->
     fst (feature_engineering_step df t features w) = Raise (ValueError msg)).
Proof.
  intros Hdf.
  pose proof (step_frame_lookup df features w _ Hdf) as Hdf'.
  assert (Hstep :
    feature_engineering_step df t features w
    = Normalize_run
        (World (heap w ++ [NormalizeFeatureEngineeringStrategy features;
                           FeatureEngineeringHandler (length (heap w))])
               (log w)) t idx cols).
  { rewrite step_run. now apply Normalize_apply_transformation_frame. }
  rewrite Hstep. unfold Normalize_run. split.
  - intros Ht.
    destruct (label_columns t cols) as [|c ys] eqn:Hys; [reflexivity|].
    exfalso. apply Ht, In_label_columns. rewrite Hys. discriminate.
  - intros msg Ht Hc. rewrite Hc.
    apply In_label_columns in Ht.
    now destruct (label_columns t cols).
Qed.

End Theory.

(** ** The properties on the executable instance *)

Import Demo.

Lemma flag_present : In "FLAG" (map fst table_columns).
Proof. simpl. right. right. left. reflexivity. Defined.

(** With the feature list [A], the step transforms column B as well. *)
Example step_transforms_unlisted_column :
  feature_engineering_step (E := demo) 0 "FLAG" ["A"] w0
  = (Ok 14, snd (feature_engineering_step (E := demo) 0 "FLAG" ["A"] w0))
  /\ heap (snd (feature_engineering_step (E := demo) 0 "FLAG" ["A"] w0)) !! 14
     = Some (DataFrame [LInt 0; LInt 1; LInt 2]
               [("A", [Num 0; Num 1; Num 2]);
                ("B", [Num 0; Num 1; Num 2]);
                ("FLAG", [Num 0; Num 1; Num 0])]).
Proof. split; reflexivity. Qed.

Lemma feature_list_is_not_consulted_witness :
  exists r w',
    feature_engineering_step (E := demo) 0 "FLAG" ["A"] w0 = (Ok r, w') /\
    heap w' !! r = Some (transformed_frame "FLAG" table_index table_columns).
Proof.
  apply (feature_list_is_not_consulted (E := demo) ["A"] 0 "FLAG" w0 table_index table_columns);
    [reflexivity | exact flag_present | reflexivity].
Defined.

Lemma label_preservation_witness :
  exists r w' idx' cols',
    Normalize_apply_transformation (E := demo) 2 0 "FLAG" w0 = (Ok r, w') /\
    heap w' !! r = Some (DataFrame idx' cols') /\
    label_columns "FLAG" cols' = label_columns "FLAG" table_columns.
Proof.
  apply (label_preservation (E := demo) 2 0 "FLAG" w0 table_index table_columns);
    [reflexivity | exact flag_present | reflexivity].
Defined.

Lemma missing_target_fails_witness :
  Normalize_apply_transformation (E := demo) 2 1 "FLAG" w0
  = (Raise (KeyError "FLAG"),
     World (heap w0) (log w0 ++ ["Starting feature normalization process."])).
Proof.
  apply (missing_target_fails (E := demo) 2 1 "FLAG" w0 table_index
           unlabeled_columns).
  - reflexivity.
  - simpl. intros [H | [H | []]]; discriminate H.
Defined.

Lemma handler_delegates_witness :
  Handler_apply_transformation (E := demo) 3 0 "FLAG" w0
  = call_apply_transformation (E := demo) 2 0 "FLAG" w0.
Proof.
  apply (handler_delegates (E := demo) 3 2 0 "FLAG" w0). reflexivity.
Defined.

Lemma column_set_invariance_witness :
  exists r w' idx' cols',
    Normalize_apply_transformation (E := demo) 2 0 "FLAG" w0 = (Ok r, w') /\
    heap w' !! r = Some (DataFrame idx' cols') /\
    (forall c, In c (map fst cols') <-> In c (map fst table_columns)) /\
    map fst cols'
    = List.filter (fun c => negb (String.eqb c "FLAG")) (map fst table_columns)
      ++ List.filter (fun c => String.eqb c "FLAG") (map fst table_columns) /\
    last (map fst cols') = Some "FLAG".
Proof.
  apply (column_set_invariance (E := demo) 2 0 "FLAG" w0 table_index table_columns);
    [reflexivity | exact flag_present | reflexivity].
Defined.

Lemma row_count_invariance_witness :
  exists r w' idx' cols',
    Normalize_apply_transformation (E := demo) 2 0 "FLAG" w0 = (Ok r, w') /\
    heap w' !! r = Some (DataFrame idx' cols') /\
    length idx' = length table_index /\
    Forall (fun c => length (snd c) = length idx') cols'.
Proof.
  apply (row_count_invariance (E := demo) 2 0 "FLAG" w0 table_index table_columns);
    [reflexivity | repeat constructor | exact flag_present | reflexivity].
Defined.

Lemma output_has_default_index_witness :
  exists idx cols,
    heap w0 !! 0 = Some (DataFrame idx cols) /\
    heap (snd (Normalize_apply_transformation (E := demo) 2 0 "FLAG" w0)) !! 12
    = Some (transformed_frame "FLAG" idx cols) /\
    exists cols',
      transformed_frame "FLAG" idx cols
      = DataFrame (RangeIndex (length idx)) cols' /\
      forall c, In c (map fst cols') -> In c (map fst cols).
Proof.
  apply (output_has_default_index (E := demo) 2 0 "FLAG" w0 12
           (snd (Normalize_apply_transformation (E := demo) 2 0 "FLAG" w0))).
  reflexivity.
Defined.

Lemma input_not_mutated_witness :
  heap (snd (Normalize_apply_transformation (E := demo) 2 0 "FLAG" w0)) !! 0
  = Some table /\
  (forall l o', heap w0 !! l = Some o' ->
     heap (snd (Normalize_apply_transformation (E := demo) 2 0 "FLAG" w0)) !! l
     = Some o') /\
  (forall r, fst (Normalize_apply_transformation (E := demo) 2 0 "FLAG" w0) = Ok r ->
     heap w0 !! r = None /\ r <> 0).
Proof.
  apply (input_not_mutated (E := demo) 2 0 "FLAG" w0 table). reflexivity.
Defined.

Lemma strategy_substitutability_witness :
  exists w1,
    set_strategy (E := demo) 5 2 w0 = (Ok tt, w1) /\
    heap w1 !! 5 = Some (FeatureEngineeringHandler 2) /\
    (forall l, l <> 5 -> heap w1 !! l = heap w0 !! l) /\
    log w1 = log w0 /\
    Handler_apply_transformation (E := demo) 5 0 "FLAG" w1
    = call_apply_transformation (E := demo) 2 0 "FLAG" w1 /\
    (forall features idx cols,
       heap w1 !! 2 = Some (NormalizeFeatureEngineeringStrategy features) ->
       heap w1 !! 0 = Some (DataFrame idx cols) ->
       Handler_apply_transformation (E := demo) 5 0 "FLAG" w1
       = Normalize_run w1 "FLAG" idx cols).
Proof.
  apply (strategy_substitutability (E := demo) 5 4 2 0 "FLAG" w0). reflexivity.
Defined.

Lemma strategy_after_set_witness :
  exists w',
    set_strategy (E := demo) 3 7 w0 = (Ok tt, w') /\
    strategy (E := demo) 3 w' = (Ok 7, w').
Proof.
  apply (strategy_after_set (E := demo) 3 2 7 w0). reflexivity.
Defined.

Lemma set_strategy_twice_witness :
  bind (set_strategy (E := demo) 3 4) (fun _ => set_strategy (E := demo) 3 2) w0
  = set_strategy (E := demo) 3 2 w0.
Proof.
  apply (set_strategy_twice (E := demo) 3 2 4 2 w0). reflexivity.
Defined.

Lemma set_strategy_current_witness :
  bind (strategy (E := demo) 3) (fun s' => set_strategy (E := demo) 3 s') w0
  = (Ok tt, w0).
Proof.
  apply (set_strategy_current (E := demo) 3 2 w0). reflexivity.
Defined.

Lemma flag_present_text : In "FLAG" (map fst text_columns).
Proof. simpl. right. left. reflexivity. Defined.

Lemma flag_present_relabeled : In "FLAG" (map fst relabeled_columns).
Proof. simpl. left. reflexivity. Defined.

Lemma rejected_features_fail_witness :
  Normalize_apply_transformation (E := demo) 2 6 "FLAG" w1
  = (Raise (ValueError "could not convert string to float"),
     World (heap w1 ++ [selected "FLAG" table_index
                          (label_columns "FLAG" text_columns);
                        DataFrame table_index
                          (feature_columns "FLAG" text_columns);
                        PowerTransformer None])
           (log w1 ++ ["Starting feature normalization process."])).
Proof.
  apply (rejected_features_fail (E := demo) 2 6 "FLAG" w1 table_index
           text_columns);
    [reflexivity | exact flag_present_text | reflexivity].
Defined.

Lemma transformed_feature_columns_witness :
  exists r w' idx' cols',
    Normalize_apply_transformation (E := demo) 2 0 "FLAG" w0 = (Ok r, w') /\
    heap w' !! r = Some (DataFrame idx' cols') /\
    feature_columns "FLAG" cols'
    = map (fun c => (fst c, transform_col (fit_col (snd c)) (snd c)))
        (feature_columns "FLAG" table_columns).
Proof.
  apply (transformed_feature_columns (E := demo) 2 0 "FLAG" w0 table_index
           table_columns);
    [reflexivity | exact flag_present | reflexivity].
Defined.

Lemma features_independent_of_labels_witness :
  exists r1 w1' r2 w2' idx' c1 c2,
    Normalize_apply_transformation (E := demo) 2 0 "FLAG" w0 = (Ok r1, w1') /\
    Normalize_apply_transformation (E := demo) 2 7 "FLAG" w1 = (Ok r2, w2') /\
    heap w1' !! r1 = Some (DataFrame idx' c1) /\
    heap w2' !! r2 = Some (DataFrame idx' c2) /\
    feature_columns "FLAG" c1 = feature_columns "FLAG" c2.
Proof.
  apply (features_independent_of_labels (E := demo) 2 2 0 7 "FLAG" w0 w1
           table_index table_columns relabeled_index relabeled_columns);
    [ reflexivity | reflexivity | exact flag_present
    | exact flag_present_relabeled | reflexivity | reflexivity | reflexivity ].
Defined.

Lemma rerun_on_output_witness :
  exists r1 w1' r2 w2' idx' cols1 cols2,
    Normalize_apply_transformation (E := demo) 2 0 "FLAG" w0 = (Ok r1, w1') /\
    Normalize_apply_transformation (E := demo) 2 r1 "FLAG" w1' = (Ok r2, w2') /\
    heap w1' !! r1 = Some (DataFrame idx' cols1) /\
    heap w2' !! r2 = Some (DataFrame idx' cols2) /\
    map fst cols2 = map fst cols1 /\
    label_columns "FLAG" cols2 = label_columns "FLAG" table_columns.
Proof.
  apply (rerun_on_output (E := demo) 2 0 "FLAG" w0 table_index table_columns);
    [reflexivity | exact flag_present | reflexivity | reflexivity].
Defined.

Lemma failed_call_leaves_handler_usable_witness :
  exists w' r w'',
    Handler_apply_transformation (E := demo) 3 0 "flag" w0
    = (Raise (KeyError "flag"), w') /\
    Handler_apply_transformation (E := demo) 3 0 "FLAG" w' = (Ok r, w'') /\
    heap w'' !! r = Some (transformed_frame "FLAG" table_index table_columns).
Proof.
  apply (failed_call_leaves_handler_usable (E := demo) 3 2 ["A"] 0 "flag" "FLAG"
           w0 table_index table_columns).
  - reflexivity.
  - reflexivity.
  - reflexivity.
  - simpl. intros [H | [H | [H | []]]]; discriminate H.
  - exact flag_present.
  - reflexivity.
Defined.

Lemma step_propagates_errors_witness :
  (~ In "FLAG" (map fst text_columns) ->
   fst (feature_engineering_step (E := demo) 6 "FLAG" [] w1)
   = Raise (KeyError "FLAG")) /\
  (forall msg,
     In "FLAG" (map fst text_columns) ->
     check_input (length table_index)
       (map snd (feature_columns "FLAG" text_columns)) = Some msg ->
     fst (feature_engineering_step (E := demo) 6 "FLAG" [] w1)
     = Raise (ValueError msg)).
Proof.
  apply (step_propagates_errors (E := demo) 6 "FLAG" [] w1 table_index
           text_columns).
  reflexivity.
Defined.
